(** * maxmiize video engine: [VideoEngine.hpp] / [VideoEngine.cpp]

    A shallow embedding of the class [maxmiize::video::VideoEngine] and of
    the struct [VideoMetadata], followed by the properties of its methods.

    The class has two private members, [initialized_] and [metadata_].  Every
    method also writes a diagnostic line to [std::cout] or [std::cerr]; the
    two streams are part of the state the methods run in.  A method is a
    computation in a small state monad over that state. *)

From Stdlib Require Import ZArith List String Bool Lia.
From Stdlib Require Import Floats.PrimFloat.
From Stdlib Require Import DecimalString.
From Stdlib Require DecimalPos DecimalZ.
From Stdlib Require Import Init.Byte.
Import ListNotations.

Local Open Scope Z_scope.
Local Open Scope string_scope.

(** ** Data model *)

(** [struct VideoMetadata] (VideoEngine.hpp).  [int64_t] and [int] are
    integers, [double] is a binary64 float. *)
Record VideoMetadata : Type := mkVideoMetadata {
  filePath   : string;
  durationMs : Z;
  frameRate  : float;
  width      : Z;
  height     : Z;
  codec      : string
}.

(** The private members of [class VideoEngine]. *)
Record VideoEngine : Type := mkVideoEngine {
  initialized_ : bool;
  metadata_    : VideoMetadata
}.

(** The engine together with the two output streams its methods write to.
    A stream is the list of lines written so far, oldest first (every
    write in the source ends in [std::endl]). *)
Record World : Type := mkWorld {
  engine : VideoEngine;
  cout   : list string;
  cerr   : list string
}.

(** ** The state monad the methods run in *)

Definition M (A : Type) : Type := World -> A * World.

Definition ret {A : Type} (a : A) : M A := fun w => (a, w).

Definition bind {A B : Type} (m : M A) (k : A -> M B) : M B :=
  fun w => let (a, w') := m w in k a w'.

Notation "x <- m ;; k" := (bind m (fun x => k))
  (at level 61, m at next level, right associativity).
Notation "m ;; k" := (bind m (fun _ => k))
  (at level 61, right associativity).

(** [std::cout << s << std::endl] *)
Definition cout_line (s : string) : M unit :=
  fun w => (tt, mkWorld (engine w) (cout w ++ [s]) (cerr w)).

(** [std::cerr << s << std::endl] *)
Definition cerr_line (s : string) : M unit :=
  fun w => (tt, mkWorld (engine w) (cout w) (cerr w ++ [s])).

(** Read of the member [initialized_]. *)
Definition get_initialized : M bool :=
  fun w => (initialized_ (engine w), w).

(** Read of the member [metadata_]. *)
Definition get_metadata : M VideoMetadata :=
  fun w => (metadata_ (engine w), w).

(** [initialized_ = b;] *)
Definition set_initialized (b : bool) : M unit :=
  fun w => (tt, mkWorld (mkVideoEngine b (metadata_ (engine w))) (cout w) (cerr w)).

(** An assignment to one field of [metadata_]. *)
Definition assign (f : VideoMetadata -> VideoMetadata) : M unit :=
  fun w =>
    (tt, mkWorld (mkVideoEngine (initialized_ (engine w)) (f (metadata_ (engine w))))
                 (cout w) (cerr w)).

Definition set_filePath (v : string) (m : VideoMetadata) : VideoMetadata :=
  mkVideoMetadata v (durationMs m) (frameRate m) (width m) (height m) (codec m).
Definition set_durationMs (v : Z) (m : VideoMetadata) : VideoMetadata :=
  mkVideoMetadata (filePath m) v (frameRate m) (width m) (height m) (codec m).
Definition set_frameRate (v : float) (m : VideoMetadata) : VideoMetadata :=
  mkVideoMetadata (filePath m) (durationMs m) v (width m) (height m) (codec m).
Definition set_width (v : Z) (m : VideoMetadata) : VideoMetadata :=
  mkVideoMetadata (filePath m) (durationMs m) (frameRate m) v (height m) (codec m).
Definition set_height (v : Z) (m : VideoMetadata) : VideoMetadata :=
  mkVideoMetadata (filePath m) (durationMs m) (frameRate m) (width m) v (codec m).
Definition set_codec (v : string) (m : VideoMetadata) : VideoMetadata :=
  mkVideoMetadata (filePath m) (durationMs m) (frameRate m) (width m) (height m) v.

(** [operator<<] on an [int64_t]: the decimal numeral, with a leading minus
    sign for a negative value. *)
Definition show_int64 (z : Z) : string := NilZero.string_of_int (Z.to_int z).

(** ** The methods of [VideoEngine] *)

(** The numeric fields of [metadata_] are not initialised by the
    constructor (it only names [initialized_] in its initialiser list):
    they hold whatever the storage held.  The two strings are default
    constructed, hence empty. *)
Record Indeterminate : Type := mkIndeterminate {
  ind_durationMs : Z;
  ind_frameRate  : float;
  ind_width      : Z;
  ind_height     : Z
}.

Definition default_metadata (u : Indeterminate) : VideoMetadata :=
  mkVideoMetadata "" (ind_durationMs u) (ind_frameRate u) (ind_width u) (ind_height u) "".

(** [VideoEngine::VideoEngine()], run with the streams holding [out] and
    [err]. *)
Definition construct (u : Indeterminate) (out err : list string) : World :=
  mkWorld (mkVideoEngine false (default_metadata u))
          (out ++ ["VideoEngine: Constructor called"]) err.

(** [bool VideoEngine::initialize()] *)
Definition initialize : M bool :=
  init <- get_initialized ;;
  if init then
    cout_line "VideoEngine: Already initialized" ;;
    ret true
  else
    cout_line "VideoEngine: Initializing..." ;;
    set_initialized true ;;
    ret true.

(** [bool VideoEngine::loadVideo(const std::string& filePath)] *)
Definition loadVideo (path : string) : M bool :=
  init <- get_initialized ;;
  if negb init then
    cerr_line "VideoEngine: Not initialized" ;;
    ret false
  else
    cout_line ("VideoEngine: Loading video: " ++ path) ;;
    assign (set_filePath path) ;;
    assign (set_durationMs 0) ;;
    assign (set_frameRate 30%float) ;;
    assign (set_width 1920) ;;
    assign (set_height 1080) ;;
    assign (set_codec "h264") ;;
    ret true.

(** [VideoMetadata VideoEngine::getMetadata() const]: a copy of the member. *)
Definition getMetadata : M VideoMetadata := get_metadata.

(** What a call of [extractFrame] hands back: the [bool] it returns and the
    stores it made through the pointer [buffer], in order, each an offset
    into the buffer and the byte stored there. *)
Record Extracted : Type := mkExtracted {
  result : bool;
  stores : list (nat * byte)
}.

(** [bool VideoEngine::extractFrame(int64_t timestampMs, uint8_t* buffer,
    size_t bufferSize)].  [buffer] is the content of the caller's buffer at
    the call.  The body never dereferences [buffer] and never reads
    [bufferSize] or [metadata_]. *)
Definition extractFrame (timestampMs : Z) (buffer : list byte) (bufferSize : N)
  : M Extracted :=
  init <- get_initialized ;;
  if negb init then
    cerr_line "VideoEngine: Not initialized" ;;
    ret (mkExtracted false [])
  else
    cout_line ("VideoEngine: Extracting frame at " ++ show_int64 timestampMs ++ "ms") ;;
    ret (mkExtracted true []).

(** [static std::string VideoEngine::getVersion()] *)
Definition getVersion : string := "1.0.0".

(** The caller's buffer after a call: the stores applied in order.  A store
    past the end of the buffer is outside the object; none is kept. *)
Fixpoint poke (i : nat) (v : byte) (buffer : list byte) : list byte :=
  match buffer, i with
  | [], _ => []
  | _ :: tl, O => v :: tl
  | hd :: tl, S j => hd :: poke j v tl
  end.

Definition write_back (buffer : list byte) (ss : list (nat * byte)) : list byte :=
  fold_left (fun b s => poke (fst s) (snd s) b) ss buffer.

(** ** Sequences of calls *)

Inductive call : Type :=
| Initialize
| LoadVideo (path : string)
| GetMetadata
| ExtractFrame (timestampMs : Z) (buffer : list byte) (bufferSize : N).

(** The state a call leaves behind. *)
Definition exec (c : call) (w : World) : World :=
  match c with
  | Initialize => snd (initialize w)
  | LoadVideo path => snd (loadVideo path w)
  | GetMetadata => snd (getMetadata w)
  | ExtractFrame t b n => snd (extractFrame t b n w)
  end.

Definition run (cs : list call) (w : World) : World :=
  fold_left (fun w' c => exec c w') cs w.

(** A video is loaded once a [loadVideo] has returned [true], and from then
    on whatever is called. *)
Inductive Loaded : World -> Prop :=
| Loaded_load (path : string) (w : World) :
    fst (loadVideo path w) = true -> Loaded (snd (loadVideo path w))
| Loaded_exec (c : call) (w : World) :
    Loaded w -> Loaded (exec c w).

(** ** Abbreviations *)

(** What [loadVideo] assigns, as one value. *)
Definition loaded_metadata (path : string) : VideoMetadata :=
  mkVideoMetadata path 0 30%float 1920 1080 "h264".

(** The line [extractFrame] writes to [std::cout] once past the flag test. *)
Definition extracting_line (timestampMs : Z) : string :=
  "VideoEngine: Extracting frame at " ++ show_int64 timestampMs ++ "ms".

(** ** Predicates of the specification *)

(** The invariant the data model states for a loaded video's metadata. *)
Definition valid_metadata (m : VideoMetadata) : Prop :=
  0 <= durationMs m /\ PrimFloat.ltb 0%float (frameRate m) = true /\
  0 < width m /\ 0 < height m.

(** [timestampMs] lies in the half-open range of the video. *)
Definition in_range (m : VideoMetadata) (timestampMs : Z) : Prop :=
  0 <= timestampMs < durationMs m.

(** Modelled from the spec: the size of one decoded frame,
    [width*height*bytesPerPixel].  The source has no pixel format and no
    frame size; [bytesPerPixel] is the number of bytes of one pixel in the
    output layout. *)
Definition frameBytes (bytesPerPixel : Z) (m : VideoMetadata) : Z :=
  width m * height m * bytesPerPixel.

(** ** Worlds used in the examples *)

Definition garbage : Indeterminate := mkIndeterminate (-7) 0%float 0 (-3).

(** A constructed engine, nothing called yet. *)
Definition fresh : World := construct garbage [] [].

(** Constructed and initialised. *)
Definition ready : World := snd (initialize fresh).

(** Constructed, initialised, and [loadVideo("a.mp4")] called. *)
Definition playing : World := snd (loadVideo "a.mp4" ready).

(** A caller's buffer of ten bytes. *)
Definition ten_bytes : list byte := repeat x00 10.

(** One byte per colour channel of interleaved RGB. *)
Definition rgb : Z := 3.

(** A caller's buffer of 1920*1080*3 bytes: one RGB frame. *)
Definition frame_size : N := 6220800.
Definition frame_buffer : list byte := repeat x00 (N.to_nat frame_size).

(** ** The rest of the class *)

(** [VideoEngine::~VideoEngine()]: the object's lifetime ends; what remains
    is the two streams, [std::cout] first. *)
Definition destroy (w : World) : list string * list string :=
  ((cout w ++ ["VideoEngine: Destructor called"])%list, cerr w).

(** The [bool] a call returns; [getMetadata] returns none. *)
Definition outcome (c : call) (w : World) : option bool :=
  match c with
  | Initialize => Some (fst (initialize w))
  | LoadVideo path => Some (fst (loadVideo path w))
  | GetMetadata => None
  | ExtractFrame t b n => Some (result (fst (extractFrame t b n w)))
  end.

(** The values returned along a sequence of calls, in order. *)
Fixpoint outcomes (cs : list call) (w : World) : list (option bool) :=
  match cs with
  | [] => []
  | c :: cs' => outcome c w :: outcomes cs' (exec c w)
  end.

(** Every method but [getMetadata] has a statement writing to a stream. *)
Definition logs (c : call) : bool :=
  match c with
  | GetMetadata => false
  | _ => true
  end.

(** Whether a call is a [loadVideo]. *)
Definition is_load (c : call) : bool :=
  match c with
  | LoadVideo _ => true
  | _ => false
  end.

(** Whether a call is an [initialize]. *)
Definition is_initialize (c : call) : bool :=
  match c with
  | Initialize => true
  | _ => false
  end.

(** ** The methods on these worlds *)

Example ready_cout :
  cout ready = ["VideoEngine: Constructor called"; "VideoEngine: Initializing..."].
Proof. reflexivity. Qed.

Example playing_metadata :
  metadata_ (engine playing)
  = mkVideoMetadata "a.mp4" 0 30%float 1920 1080 "h264".
Proof. reflexivity. Qed.

Example extract_negative_log :
  cout (snd (extractFrame (-1) [] 0 playing))
  = (cout playing ++ ["VideoEngine: Extracting frame at -1ms"])%list.
Proof. reflexivity. Qed.

Example load_before_initialize :
  loadVideo "a.mp4" fresh
  = (false, mkWorld (engine fresh) (cout fresh) ["VideoEngine: Not initialized"]).
Proof. reflexivity. Qed.

(** ** What each method computes *)

(** A branch of a method is settled by the value of the flag it tests. *)
Ltac take_branch w Hi :=
  destruct w as [[i m] out err]; simpl in Hi; subst i; reflexivity.

(** The two branches of [initialize]. *)
Lemma initialize_already (w : World) :
  initialized_ (engine w) = true ->
  initialize w
  = (true, mkWorld (engine w) (cout w ++ ["VideoEngine: Already initialized"]) (cerr w)).
Proof.
  intros Hi. take_branch w Hi.
Qed.

Lemma initialize_first (w : World) :
  initialized_ (engine w) = false ->
  initialize w
  = (true, mkWorld (mkVideoEngine true (metadata_ (engine w)))
                   (cout w ++ ["VideoEngine: Initializing..."]) (cerr w)).
Proof.
  intros Hi. take_branch w Hi.
Qed.

(** The two branches of [loadVideo]. *)
Lemma loadVideo_not_initialized (path : string) (w : World) :
  initialized_ (engine w) = false ->
  loadVideo path w
  = (false, mkWorld (engine w) (cout w) (cerr w ++ ["VideoEngine: Not initialized"])).
Proof.
  intros Hi. take_branch w Hi.
Qed.

Lemma loadVideo_initialized (path : string) (w : World) :
  initialized_ (engine w) = true ->
  loadVideo path w
  = (true, mkWorld (mkVideoEngine true
                      (mkVideoMetadata path 0 30%float 1920 1080 "h264"))
                   (cout w ++ ["VideoEngine: Loading video: " ++ path]) (cerr w)).
Proof.
  intros Hi. take_branch w Hi.
Qed.

(** The two branches of [extractFrame]. *)
Lemma extractFrame_not_initialized (t : Z) (b : list byte) (n : N) (w : World) :
  initialized_ (engine w) = false ->
  extractFrame t b n w
  = (mkExtracted false [],
     mkWorld (engine w) (cout w) (cerr w ++ ["VideoEngine: Not initialized"])).
Proof.
  intros Hi. take_branch w Hi.
Qed.

Lemma extractFrame_initialized (t : Z) (b : list byte) (n : N) (w : World) :
  initialized_ (engine w) = true ->
  extractFrame t b n w
  = (mkExtracted true [],
     mkWorld (engine w)
             (cout w ++ ["VideoEngine: Extracting frame at " ++ show_int64 t ++ "ms"])
             (cerr w)).
Proof.
  intros Hi. take_branch w Hi.
Qed.

(** A [loadVideo] returns the flag it read. *)
Lemma loadVideo_result (path : string) (w : World) :
  fst (loadVideo path w) = initialized_ (engine w).
Proof.
  case_eq (initialized_ (engine w)); intros Hi.
  - rewrite (loadVideo_initialized path w Hi). reflexivity.
  - rewrite (loadVideo_not_initialized path w Hi). reflexivity.
Qed.

(** So does an [extractFrame]. *)
Lemma extractFrame_result (t : Z) (b : list byte) (n : N) (w : World) :
  result (fst (extractFrame t b n w)) = initialized_ (engine w).
Proof.
  case_eq (initialized_ (engine w)); intros Hi.
  - rewrite (extractFrame_initialized t b n w Hi). reflexivity.
  - rewrite (extractFrame_not_initialized t b n w Hi). reflexivity.
Qed.

(** No branch of [extractFrame] stores through [buffer]. *)
Lemma extractFrame_stores (t : Z) (b : list byte) (n : N) (w : World) :
  stores (fst (extractFrame t b n w)) = [].
Proof.
  case_eq (initialized_ (engine w)); intros Hi.
  - rewrite (extractFrame_initialized t b n w Hi). reflexivity.
  - rewrite (extractFrame_not_initialized t b n w Hi). reflexivity.
Qed.

(** Nor does any branch assign to a member. *)
Lemma extractFrame_engine (t : Z) (b : list byte) (n : N) (w : World) :
  engine (snd (extractFrame t b n w)) = engine w.
Proof.
  case_eq (initialized_ (engine w)); intros Hi.
  - rewrite (extractFrame_initialized t b n w Hi). reflexivity.
  - rewrite (extractFrame_not_initialized t b n w Hi). reflexivity.
Qed.

(** ** The flag [initialized_] along a sequence of calls *)

Lemma run_app (cs1 cs2 : list call) (w : World) :
  run (cs1 ++ cs2) w = run cs2 (run cs1 w).
Proof. unfold run. apply fold_left_app. Qed.

Lemma run_cons (c : call) (cs : list call) (w : World) :
  run (c :: cs) w = run cs (exec c w).
Proof. reflexivity. Qed.

(** No call clears the flag. *)
Lemma exec_keeps_initialized (c : call) (w : World) :
  initialized_ (engine w) = true -> initialized_ (engine (exec c w)) = true.
Proof.
  intros Hi. destruct c as [ | path | | t b n ]; simpl.
  - rewrite (initialize_already w Hi). exact Hi.
  - rewrite (loadVideo_initialized path w Hi). reflexivity.
  - exact Hi.
  - rewrite extractFrame_engine. exact Hi.
Qed.

Lemma run_keeps_initialized (cs : list call) :
  forall w, initialized_ (engine w) = true -> initialized_ (engine (run cs w)) = true.
Proof.
  induction cs as [ | c cs IH ]; intros w Hi.
  - exact Hi.
  - rewrite run_cons. apply IH. apply exec_keeps_initialized. exact Hi.
Qed.

(** Only [initialize] sets the flag: a call of anything else leaves a clear
    flag clear. *)
Lemma exec_keeps_uninitialized (c : call) (w : World) :
  c <> Initialize ->
  initialized_ (engine w) = false -> initialized_ (engine (exec c w)) = false.
Proof.
  intros Hc Hi. destruct c as [ | path | | t b n ]; simpl.
  - contradiction Hc. reflexivity.
  - rewrite (loadVideo_not_initialized path w Hi). exact Hi.
  - exact Hi.
  - rewrite extractFrame_engine. exact Hi.
Qed.

(** Before the first [initialize] the flag of a constructed engine is
    clear. *)
Lemma uninitialized_until_initialize
    (u : Indeterminate) (out err : list string) (cs : list call) :
  ~ In Initialize cs ->
  initialized_ (engine (run cs (construct u out err))) = false.
Proof.
  assert (Hw : initialized_ (engine (construct u out err)) = false) by reflexivity.
  revert Hw. generalize (construct u out err).
  induction cs as [ | c cs IH ]; intros w Hw Hnot.
  - exact Hw.
  - rewrite run_cons. apply IH.
    + apply exec_keeps_uninitialized; [ | exact Hw ].
      intros ->. apply Hnot. left. reflexivity.
    + intros Hin. apply Hnot. right. exact Hin.
Qed.

(** [initialize] always leaves the flag set. *)
Lemma initialize_sets_flag (w : World) :
  initialized_ (engine (snd (initialize w))) = true.
Proof.
  case_eq (initialized_ (engine w)); intros Hi.
  - rewrite (initialize_already w Hi). exact Hi.
  - rewrite (initialize_first w Hi). reflexivity.
Qed.

(** ** Loaded engines *)

(** Only [loadVideo] assigns to [metadata_]. *)
Lemma exec_metadata (c : call) (w : World) :
  initialized_ (engine w) = true ->
  metadata_ (engine (exec c w))
  = match c with
    | LoadVideo path => loaded_metadata path
    | _ => metadata_ (engine w)
    end.
Proof.
  intros Hi. destruct c as [ | path | | t b n ]; simpl.
  - rewrite (initialize_already w Hi). reflexivity.
  - rewrite (loadVideo_initialized path w Hi). reflexivity.
  - reflexivity.
  - rewrite extractFrame_engine. reflexivity.
Qed.

(** A loaded engine is initialised and holds the metadata of its last
    [loadVideo]. *)
Lemma Loaded_inv (w : World) :
  Loaded w ->
  initialized_ (engine w) = true /\
  exists path, metadata_ (engine w) = loaded_metadata path.
Proof.
  induction 1 as [ path w Hret | c w HL [Hi [p Hm]] ].
  - rewrite loadVideo_result in Hret.
    rewrite (loadVideo_initialized path w Hret). simpl.
    split; [ reflexivity | exists path; reflexivity ].
  - split.
    + apply exec_keeps_initialized. exact Hi.
    + rewrite (exec_metadata c w Hi).
      destruct c as [ | path | | t b n ];
        [ exists p | exists path | exists p | exists p ]; auto.
Qed.

Lemma Loaded_run (cs : list call) :
  forall w, Loaded w -> Loaded (run cs w).
Proof.
  induction cs as [ | c cs IH ]; intros w HL.
  - exact HL.
  - rewrite run_cons. apply IH. apply Loaded_exec. exact HL.
Qed.

Lemma loaded_metadata_valid (path : string) : valid_metadata (loaded_metadata path).
Proof.
  unfold valid_metadata, loaded_metadata; simpl.
  repeat split; try lia; reflexivity.
Qed.

(** [loadVideo] stores the duration 0, so no timestamp lies in the range of
    a loaded video. *)
Lemma Loaded_range_empty (w : World) (t : Z) :
  Loaded w -> ~ in_range (metadata_ (engine w)) t.
Proof.
  intros HL. destruct (Loaded_inv w HL) as [_ [p Hm]].
  rewrite Hm. unfold in_range, loaded_metadata; simpl. lia.
Qed.

Lemma playing_Loaded : Loaded playing.
Proof. unfold playing. apply Loaded_load. reflexivity. Qed.

Lemma ready_not_Loaded : ~ Loaded ready.
Proof.
  intros HL. destruct (Loaded_inv ready HL) as [_ [p Hm]].
  apply (f_equal codec) in Hm. simpl in Hm. discriminate Hm.
Qed.

(** ** [initialize] *)

(** C5.  [initialize] is idempotent.  Whatever the engine, the call returns
    [true], leaves the flag set and the metadata as it was; on an engine
    that is already initialised both members are left as they were; and a
    second call after the first returns [true] and leaves the engine as the
    first call left it.  (Each call also writes its line to [std::cout],
    which is not a member of the engine.) *)
Theorem initialize_idempotent (w : World) :
  fst (initialize w) = true /\
  initialized_ (engine (snd (initialize w))) = true /\
  metadata_ (engine (snd (initialize w))) = metadata_ (engine w) /\
  (initialized_ (engine w) = true -> engine (snd (initialize w)) = engine w) /\
  fst (initialize (snd (initialize w))) = true /\
  engine (snd (initialize (snd (initialize w)))) = engine (snd (initialize w)).
Proof.
  assert (Hflag := initialize_sets_flag w).
  split; [ | split; [ exact Hflag | split; [ | split; [ | split ] ] ] ].
  - destruct (initialized_ (engine w)) eqn:Hi;
      [ rewrite (initialize_already w Hi) | rewrite (initialize_first w Hi) ];
      reflexivity.
  - destruct (initialized_ (engine w)) eqn:Hi;
      [ rewrite (initialize_already w Hi) | rewrite (initialize_first w Hi) ];
      reflexivity.
  - intros Hi. rewrite (initialize_already w Hi). reflexivity.
  - rewrite (initialize_already _ Hflag). reflexivity.
  - rewrite (initialize_already _ Hflag). reflexivity.
Qed.

Lemma initialize_idempotent_witness :
  initialized_ (engine ready) = true /\ engine (snd (initialize ready)) = engine ready.
Proof.
  split.
  - reflexivity.
  - apply (proj1 (proj2 (proj2 (proj2 (initialize_idempotent ready))))). reflexivity.
Defined.

(** C10.  Once [initialize] has been called the flag stays set: in a
    sequence of calls, whatever comes before an [initialize] and whatever
    comes after it, the flag is set at the end.  As this holds for every
    continuation [after], it holds at every point from that [initialize]
    onward. *)
Theorem initialized_forever (w : World) (before after : list call) :
  initialized_ (engine (run (before ++ Initialize :: after) w)) = true.
Proof.
  rewrite run_app, run_cons.
  apply run_keeps_initialized.
  simpl. apply initialize_sets_flag.
Qed.

(** ** [loadVideo] and [getMetadata] *)

(** C4.  On an engine whose flag is clear, as it is until the first
    [initialize] ([uninitialized_until_initialize]), [loadVideo] returns
    [false] for every path and leaves the metadata, indeed both members of
    the engine, as they were. *)
Theorem loadVideo_before_initialize (path : string) (w : World) :
  initialized_ (engine w) = false ->
  fst (loadVideo path w) = false /\
  metadata_ (engine (snd (loadVideo path w))) = metadata_ (engine w) /\
  engine (snd (loadVideo path w)) = engine w.
Proof.
  intros Hi. rewrite (loadVideo_not_initialized path w Hi). simpl.
  repeat split.
Qed.

Lemma loadVideo_before_initialize_witness :
  fst (loadVideo "a.mp4" fresh) = false /\
  metadata_ (engine (snd (loadVideo "a.mp4" fresh))) = metadata_ (engine fresh) /\
  engine (snd (loadVideo "a.mp4" fresh)) = engine fresh.
Proof.
  apply (loadVideo_before_initialize "a.mp4" fresh). reflexivity.
Defined.

(** C8.  On an initialised engine [loadVideo] returns [true] for every path
    and stores the path with the constants 0, 30.0, 1920, 1080 and "h264". *)
Theorem loadVideo_stores_constants (path : string) (w : World) :
  initialized_ (engine w) = true ->
  fst (loadVideo path w) = true /\
  metadata_ (engine (snd (loadVideo path w)))
  = mkVideoMetadata path 0 30%float 1920 1080 "h264".
Proof.
  intros Hi. rewrite (loadVideo_initialized path w Hi). split; reflexivity.
Qed.

Lemma loadVideo_stores_constants_witness :
  fst (loadVideo "no/such/file" ready) = true /\
  metadata_ (engine (snd (loadVideo "no/such/file" ready)))
  = mkVideoMetadata "no/such/file" 0 30%float 1920 1080 "h264".
Proof.
  apply (loadVideo_stores_constants "no/such/file" ready). reflexivity.
Defined.

(** C6.  After a [loadVideo] that returned [true] the stored metadata has
    [durationMs >= 0], [frameRate > 0], [width > 0] and [height > 0], and
    so it has after every sequence of calls that follows. *)
Theorem loadVideo_metadata_valid (path : string) (w : World) (cs : list call) :
  fst (loadVideo path w) = true ->
  valid_metadata (metadata_ (engine (snd (loadVideo path w)))) /\
  valid_metadata (metadata_ (engine (run cs (snd (loadVideo path w))))).
Proof.
  intros Hret.
  assert (HL : Loaded (snd (loadVideo path w))) by (apply Loaded_load; exact Hret).
  split.
  - destruct (Loaded_inv _ HL) as [_ [p Hm]]. rewrite Hm. apply loaded_metadata_valid.
  - destruct (Loaded_inv _ (Loaded_run cs _ HL)) as [_ [p Hm]].
    rewrite Hm. apply loaded_metadata_valid.
Qed.

Lemma loadVideo_metadata_valid_witness :
  valid_metadata (metadata_ (engine playing)) /\
  valid_metadata
    (metadata_ (engine (run [ExtractFrame 5 ten_bytes 10; GetMetadata; Initialize] playing))).
Proof.
  apply (loadVideo_metadata_valid "a.mp4" ready
           [ExtractFrame 5 ten_bytes 10; GetMetadata; Initialize]).
  reflexivity.
Defined.

(** C7.  After [loadVideo(A); loadVideo(B)], both returning [true],
    [getMetadata] returns metadata of B alone: the record it returns is the
    stored member, every field of it is what [loadVideo(B)] assigns (the
    path B and the constants, nothing of A), and it is the record
    [getMetadata] returns after a single [loadVideo(B)] on a newly
    constructed and initialised engine, whatever the constructor found in
    the fields it does not initialise. *)
Theorem reload_reflects_only_last (A B : string) (w : World)
    (u : Indeterminate) (out err : list string) :
  fst (loadVideo A w) = true ->
  fst (loadVideo B (snd (loadVideo A w))) = true ->
  fst (getMetadata (snd (loadVideo B (snd (loadVideo A w)))))
  = mkVideoMetadata B 0 30%float 1920 1080 "h264" /\
  fst (getMetadata (snd (loadVideo B (snd (loadVideo A w)))))
  = metadata_ (engine (snd (loadVideo B (snd (loadVideo A w))))) /\
  fst (getMetadata (snd (loadVideo B (snd (loadVideo A w)))))
  = fst (getMetadata (snd (loadVideo B (snd (initialize (construct u out err)))))).
Proof.
  intros HA HB.
  rewrite loadVideo_result in HA, HB.
  rewrite (loadVideo_initialized B _ HB).
  rewrite (loadVideo_initialized B _ (initialize_sets_flag (construct u out err))).
  unfold getMetadata, get_metadata. simpl.
  split; [ reflexivity | split; reflexivity ].
Qed.

Lemma reload_reflects_only_last_witness :
  fst (getMetadata (snd (loadVideo "b.mov" (snd (loadVideo "a.mp4" ready)))))
  = mkVideoMetadata "b.mov" 0 30%float 1920 1080 "h264" /\
  fst (getMetadata (snd (loadVideo "b.mov" (snd (loadVideo "a.mp4" ready)))))
  = metadata_ (engine (snd (loadVideo "b.mov" (snd (loadVideo "a.mp4" ready))))) /\
  fst (getMetadata (snd (loadVideo "b.mov" (snd (loadVideo "a.mp4" ready)))))
  = fst (getMetadata (snd (loadVideo "b.mov" (snd (initialize (construct garbage [] [])))))).
Proof.
  apply (reload_reflects_only_last "a.mp4" "b.mov" ready garbage [] []); reflexivity.
Defined.

(** ** [extractFrame] *)

Lemma write_back_nil (b : list byte) : write_back b [] = b.
Proof. reflexivity. Qed.

(** C1, as stated, fails.  With "a.mp4" loaded the duration is 0, so -1 and
    the duration itself are both outside the range, and [extractFrame]
    returns [true] at both; it also returns [true] on the initialised
    engine on which no video was loaded. *)
Lemma extractFrame_out_of_range_succeeds :
  Loaded playing /\
  ~ in_range (metadata_ (engine playing)) (-1) /\
  result (fst (extractFrame (-1) ten_bytes 10 playing)) = true /\
  ~ in_range (metadata_ (engine playing)) (durationMs (metadata_ (engine playing))) /\
  result (fst (extractFrame (durationMs (metadata_ (engine playing))) ten_bytes 10 playing))
  = true /\
  ~ Loaded ready /\
  result (fst (extractFrame 0 ten_bytes 10 ready)) = true.
Proof.
  split; [ exact playing_Loaded | ].
  split; [ apply Loaded_range_empty; exact playing_Loaded | ].
  split; [ reflexivity | ].
  split; [ apply Loaded_range_empty; exact playing_Loaded | ].
  split; [ reflexivity | ].
  split; [ exact ready_not_Loaded | reflexivity ].
Qed.

(** C1, amended.  [extractFrame] tests the flag and nothing else: its result
    is the flag.  So with a video loaded it returns [true] at every
    timestamp, those outside the range included, and with no video loaded
    it returns [false] only when the engine is not initialised. *)
Theorem extractFrame_tests_only_the_flag
    (t : Z) (b : list byte) (n : N) (w : World) :
  result (fst (extractFrame t b n w)) = initialized_ (engine w) /\
  (Loaded w -> ~ in_range (metadata_ (engine w)) t ->
   result (fst (extractFrame t b n w)) = true).
Proof.
  split.
  - apply extractFrame_result.
  - intros HL _. rewrite extractFrame_result.
    exact (proj1 (Loaded_inv w HL)).
Qed.

Lemma extractFrame_tests_only_the_flag_witness :
  result (fst (extractFrame (-1) ten_bytes 10 playing)) = true.
Proof.
  apply (proj2 (extractFrame_tests_only_the_flag (-1) ten_bytes 10 playing)).
  - apply Loaded_load. reflexivity.
  - unfold in_range. simpl. lia.
Defined.

(** C3, as stated, fails.  With "a.mp4" loaded the frame is 1920x1080; a
    ten-byte buffer is smaller than one frame at any pixel size, and
    [extractFrame] returns [true]. *)
Lemma extractFrame_small_buffer_succeeds :
  Loaded playing /\
  List.length ten_bytes = 10%nat /\
  (forall bytesPerPixel, 0 < bytesPerPixel ->
     10 < frameBytes bytesPerPixel (metadata_ (engine playing))) /\
  result (fst (extractFrame 0 ten_bytes 10 playing)) = true.
Proof.
  split; [ exact playing_Loaded | ].
  split; [ reflexivity | ].
  split; [ | reflexivity ].
  intros bpp Hbpp.
  change (metadata_ (engine playing)) with (loaded_metadata "a.mp4").
  unfold frameBytes, loaded_metadata. cbn [width height]. lia.
Qed.

(** C3, amended.  When the buffer is smaller than one decoded frame
    [extractFrame] stores nothing through it, so the buffer is as it was;
    the size is not tested, and the result is the flag. *)
Theorem extractFrame_small_buffer
    (bytesPerPixel : Z) (t : Z) (b : list byte) (n : N) (w : World) :
  Z.of_N n < frameBytes bytesPerPixel (metadata_ (engine w)) ->
  stores (fst (extractFrame t b n w)) = [] /\
  write_back b (stores (fst (extractFrame t b n w))) = b /\
  result (fst (extractFrame t b n w)) = initialized_ (engine w).
Proof.
  intros _.
  rewrite extractFrame_stores, extractFrame_result.
  repeat split.
Qed.

Lemma extractFrame_small_buffer_witness :
  stores (fst (extractFrame 0 ten_bytes 10 playing)) = [] /\
  write_back ten_bytes (stores (fst (extractFrame 0 ten_bytes 10 playing))) = ten_bytes /\
  result (fst (extractFrame 0 ten_bytes 10 playing)) = initialized_ (engine playing).
Proof.
  apply (extractFrame_small_buffer rgb 0 ten_bytes 10 playing).
  unfold frameBytes, rgb. simpl. lia.
Defined.

(** C9, as stated, fails.  The return value is not the only effect of a
    call: the line naming the timestamp has been written to [std::cout]. *)
Lemma extractFrame_writes_to_cout :
  cout (snd (extractFrame 0 ten_bytes 10 playing))
  = (cout playing ++ ["VideoEngine: Extracting frame at 0ms"])%list /\
  cout (snd (extractFrame 0 ten_bytes 10 playing)) <> cout playing /\
  snd (extractFrame 0 ten_bytes 10 playing) <> playing.
Proof.
  split; [ reflexivity | ].
  split.
  - simpl. discriminate.
  - intros Heq. apply (f_equal cout) in Heq. simpl in Heq. discriminate Heq.
Qed.

(** C9, amended.  A call of [extractFrame] leaves the caller's buffer and
    both members of the engine as they were.  Its effects are the value it
    returns, which is the flag, and one line: on [std::cout] when the
    engine is initialised, on [std::cerr] when it is not. *)
Theorem extractFrame_frame (t : Z) (b : list byte) (n : N) (w : World) :
  write_back b (stores (fst (extractFrame t b n w))) = b /\
  initialized_ (engine (snd (extractFrame t b n w))) = initialized_ (engine w) /\
  metadata_ (engine (snd (extractFrame t b n w))) = metadata_ (engine w) /\
  result (fst (extractFrame t b n w)) = initialized_ (engine w) /\
  (if initialized_ (engine w)
   then cout (snd (extractFrame t b n w)) = (cout w ++ [extracting_line t])%list /\
        cerr (snd (extractFrame t b n w)) = cerr w
   else cout (snd (extractFrame t b n w)) = cout w /\
        cerr (snd (extractFrame t b n w))
        = (cerr w ++ ["VideoEngine: Not initialized"])%list).
Proof.
  rewrite extractFrame_stores, extractFrame_engine, extractFrame_result.
  repeat (split; [ reflexivity | ]).
  destruct (initialized_ (engine w)) eqn:Hi.
  - rewrite (extractFrame_initialized t b n w Hi). split; reflexivity.
  - rewrite (extractFrame_not_initialized t b n w Hi). split; reflexivity.
Qed.

(** ** Whole sequences of calls *)

(** A call other than [loadVideo] leaves the metadata as it was, whatever
    the flag. *)
Lemma exec_metadata_not_load (c : call) (w : World) :
  is_load c = false -> metadata_ (engine (exec c w)) = metadata_ (engine w).
Proof.
  intros Hc. destruct c as [ | path | | t b n ]; simpl in *.
  - destruct (initialized_ (engine w)) eqn:Hi;
      [ rewrite (initialize_already w Hi) | rewrite (initialize_first w Hi) ];
      reflexivity.
  - discriminate Hc.
  - reflexivity.
  - rewrite extractFrame_engine. reflexivity.
Qed.

Lemma run_metadata_no_load (cs : list call) :
  forall w, (forall c, In c cs -> is_load c = false) ->
            metadata_ (engine (run cs w)) = metadata_ (engine w).
Proof.
  induction cs as [ | c cs IH ]; intros w Hcs.
  - reflexivity.
  - rewrite run_cons, IH.
    + apply exec_metadata_not_load. apply Hcs. left. reflexivity.
    + intros c' Hin. apply Hcs. right. exact Hin.
Qed.

(** A [loadVideo] either leaves the metadata as it was or stores the
    constants with its path. *)
Lemma exec_metadata_cases (c : call) (w : World) :
  metadata_ (engine (exec c w)) = metadata_ (engine w) \/
  exists path, c = LoadVideo path /\
               metadata_ (engine (exec c w)) = loaded_metadata path.
Proof.
  destruct (is_load c) eqn:Hc.
  - destruct c as [ | path | | t b n ]; try discriminate Hc.
    simpl. destruct (initialized_ (engine w)) eqn:Hi.
    + right. exists path. rewrite (loadVideo_initialized path w Hi).
      split; reflexivity.
    + left. rewrite (loadVideo_not_initialized path w Hi). reflexivity.
  - left. apply exec_metadata_not_load. exact Hc.
Qed.

(** The streams after one call on an initialised engine. *)
Lemma exec_streams_initialized (c : call) (w : World) :
  initialized_ (engine w) = true ->
  cerr (exec c w) = cerr w /\
  exists o, cout (exec c w) = (cout w ++ o)%list /\
            List.length o = if logs c then 1%nat else 0%nat.
Proof.
  intros Hi. destruct c as [ | path | | t b n ]; simpl.
  - rewrite (initialize_already w Hi). simpl. split; [ reflexivity | ].
    eexists. split; reflexivity.
  - rewrite (loadVideo_initialized path w Hi). simpl. split; [ reflexivity | ].
    eexists. split; reflexivity.
  - split; [ reflexivity | ]. exists []. rewrite app_nil_r. split; reflexivity.
  - rewrite (extractFrame_initialized t b n w Hi). simpl. split; [ reflexivity | ].
    eexists. split; reflexivity.
Qed.

(** The engine and the streams after one call, not [initialize], on an
    engine that is not initialised. *)
Lemma exec_streams_uninitialized (c : call) (w : World) :
  initialized_ (engine w) = false -> c <> Initialize ->
  engine (exec c w) = engine w /\
  cout (exec c w) = cout w /\
  cerr (exec c w)
  = (cerr w ++ if logs c then ["VideoEngine: Not initialized"] else [])%list.
Proof.
  intros Hi Hc. destruct c as [ | path | | t b n ]; simpl.
  - contradiction Hc. reflexivity.
  - rewrite (loadVideo_not_initialized path w Hi). repeat split.
  - rewrite app_nil_r. repeat split.
  - rewrite (extractFrame_not_initialized t b n w Hi). repeat split.
Qed.

(** Whatever the engine, a call only appends: one line in all when the
    method logs, none when it does not. *)
Lemma exec_appends (c : call) (w : World) :
  exists o e, cout (exec c w) = (cout w ++ o)%list /\
              cerr (exec c w) = (cerr w ++ e)%list /\
              (List.length o + List.length e)%nat = if logs c then 1%nat else 0%nat.
Proof.
  destruct (initialized_ (engine w)) eqn:Hi.
  - destruct (exec_streams_initialized c w Hi) as [He [o [Ho Hlen]]].
    exists o, []. rewrite app_nil_r, Nat.add_0_r. auto.
  - destruct c as [ | path | | t b n ].
    + simpl. rewrite (initialize_first w Hi). simpl.
      exists ["VideoEngine: Initializing..."], []. rewrite app_nil_r. auto.
    + destruct (exec_streams_uninitialized (LoadVideo path) w Hi) as [_ [Ho He]];
        [ discriminate | ].
      exists [], ["VideoEngine: Not initialized"]. rewrite app_nil_r. auto.
    + exists [], []. simpl. rewrite !app_nil_r. auto.
    + destruct (exec_streams_uninitialized (ExtractFrame t b n) w Hi) as [_ [Ho He]];
        [ discriminate | ].
      exists [], ["VideoEngine: Not initialized"]. rewrite app_nil_r. auto.
Qed.

Lemma run_appends (cs : list call) :
  forall w,
  exists o e, cout (run cs w) = (cout w ++ o)%list /\
              cerr (run cs w) = (cerr w ++ e)%list /\
              (List.length o + List.length e)%nat = List.length (filter logs cs).
Proof.
  induction cs as [ | c cs IH ]; intros w.
  - exists [], []. simpl. rewrite !app_nil_r. auto.
  - rewrite run_cons.
    destruct (IH (exec c w)) as [o [e [Ho [He Hlen]]]].
    destruct (exec_appends c w) as [o1 [e1 [Ho1 [He1 Hlen1]]]].
    exists (o1 ++ o)%list, (e1 ++ e)%list.
    rewrite Ho, He, Ho1, He1, <- !app_assoc, !length_app.
    split; [ reflexivity | split; [ reflexivity | ] ].
    simpl. destruct (logs c); simpl; lia.
Qed.

(** X1.  Along any sequence of calls, on any engine, the metadata is either
    what it was at the start or the constants stored by one of the
    [loadVideo] calls of the sequence: nothing else assigns to
    [metadata_]. *)
Theorem metadata_changed_only_by_loadVideo (cs : list call) (w : World) :
  metadata_ (engine (run cs w)) = metadata_ (engine w) \/
  exists path, In (LoadVideo path) cs /\
               metadata_ (engine (run cs w)) = loaded_metadata path.
Proof.
  revert w. induction cs as [ | c cs IH ]; intros w.
  - left. reflexivity.
  - rewrite run_cons.
    destruct (IH (exec c w)) as [Hsame | [p [Hin Hp]]].
    + destruct (exec_metadata_cases c w) as [Hc | [p [-> Hp]]].
      * left. rewrite Hsame. exact Hc.
      * right. exists p. split; [ left; reflexivity | ].
        rewrite Hsame. exact Hp.
    + right. exists p. split; [ right; exact Hin | exact Hp ].
Qed.

(** X2.  On an initialised engine the last [loadVideo] of a sequence
    decides the metadata: whatever was called before it, and whatever
    calls other than [loadVideo] follow it, the metadata is the constants
    with that call's path. *)
Theorem last_loadVideo_wins
    (before after : list call) (path : string) (w : World) :
  initialized_ (engine w) = true ->
  (forall c, In c after -> is_load c = false) ->
  metadata_ (engine (run (before ++ LoadVideo path :: after) w))
  = loaded_metadata path.
Proof.
  intros Hi Hafter.
  rewrite run_app, run_cons, (run_metadata_no_load after _ Hafter).
  simpl. rewrite (loadVideo_initialized path _ (run_keeps_initialized before w Hi)).
  reflexivity.
Qed.

Lemma last_loadVideo_wins_witness :
  metadata_ (engine (run ([LoadVideo "a.mp4"; ExtractFrame 0 ten_bytes 10]
                          ++ LoadVideo "b.mov" :: [Initialize; ExtractFrame 7 ten_bytes 10])
                         ready))
  = loaded_metadata "b.mov".
Proof.
  apply (last_loadVideo_wins [LoadVideo "a.mp4"; ExtractFrame 0 ten_bytes 10]
           [Initialize; ExtractFrame 7 ten_bytes 10] "b.mov" ready).
  - reflexivity.
  - intros c [<- | [<- | []]]; reflexivity.
Defined.

(** X3.  An initialised engine never writes to [std::cerr]: after any
    sequence of calls [std::cerr] is as it was, and [std::cout] has grown
    by one line for each call that is not a [getMetadata]. *)
Theorem initialized_engine_logs_to_cout_only (cs : list call) (w : World) :
  initialized_ (engine w) = true ->
  cerr (run cs w) = cerr w /\
  exists o, cout (run cs w) = (cout w ++ o)%list /\
            List.length o = List.length (filter logs cs).
Proof.
  revert w. induction cs as [ | c cs IH ]; intros w Hi.
  - split; [ reflexivity | ]. exists []. rewrite app_nil_r. split; reflexivity.
  - rewrite run_cons.
    destruct (IH (exec c w) (exec_keeps_initialized c w Hi)) as [He [o [Ho Hlen]]].
    destruct (exec_streams_initialized c w Hi) as [He1 [o1 [Ho1 Hlen1]]].
    split; [ rewrite He; exact He1 | ].
    exists (o1 ++ o)%list. rewrite Ho, Ho1, <- app_assoc, length_app.
    split; [ reflexivity | ].
    simpl. destruct (logs c); simpl; lia.
Qed.

Lemma initialized_engine_logs_to_cout_only_witness :
  cerr (run [ExtractFrame (-1) ten_bytes 10; GetMetadata; LoadVideo "b.mov"] ready)
  = cerr ready /\
  exists o,
    cout (run [ExtractFrame (-1) ten_bytes 10; GetMetadata; LoadVideo "b.mov"] ready)
    = (cout ready ++ o)%list /\
    List.length o
    = List.length (filter logs [ExtractFrame (-1) ten_bytes 10; GetMetadata; LoadVideo "b.mov"]).
Proof.
  apply (initialized_engine_logs_to_cout_only
           [ExtractFrame (-1) ten_bytes 10; GetMetadata; LoadVideo "b.mov"] ready).
  reflexivity.
Defined.

(** X4.  The two streams only grow: after any sequence of calls, on any
    engine, each stream is what it was followed by new lines, and the new
    lines of both together number the calls that are not a [getMetadata]. *)
Theorem streams_append_only (cs : list call) (w : World) :
  firstn (List.length (cout w)) (cout (run cs w)) = cout w /\
  firstn (List.length (cerr w)) (cerr (run cs w)) = cerr w /\
  (List.length (cout (run cs w)) + List.length (cerr (run cs w)))%nat
  = (List.length (cout w) + List.length (cerr w) + List.length (filter logs cs))%nat.
Proof.
  destruct (run_appends cs w) as [o [e [Ho [He Hlen]]]].
  rewrite Ho, He, !length_app.
  split; [ | split ].
  - rewrite firstn_app, Nat.sub_diag, firstn_all. simpl. apply app_nil_r.
  - rewrite firstn_app, Nat.sub_diag, firstn_all. simpl. apply app_nil_r.
  - lia.
Qed.

(** X5.  Until [initialize] is called the engine does nothing but refuse:
    along a sequence of calls without [initialize], on an engine that is
    not initialised, every [loadVideo] and [extractFrame] returns [false],
    both members and [std::cout] stay as they were, and [std::cerr] gets
    the line "VideoEngine: Not initialized" once per refused call. *)
Theorem uninitialized_engine_refuses (cs : list call) (w : World) :
  initialized_ (engine w) = false ->
  ~ In Initialize cs ->
  outcomes cs w = map (fun c => if logs c then Some false else None) cs /\
  engine (run cs w) = engine w /\
  cout (run cs w) = cout w /\
  cerr (run cs w)
  = (cerr w ++ repeat "VideoEngine: Not initialized" (List.length (filter logs cs)))%list.
Proof.
  revert w. induction cs as [ | c cs IH ]; intros w Hi Hnot.
  - simpl. rewrite app_nil_r. repeat split.
  - assert (Hc : c <> Initialize) by (intros ->; apply Hnot; left; reflexivity).
    destruct (exec_streams_uninitialized c w Hi Hc) as [Heng [Hout Herr]].
    assert (Hi' : initialized_ (engine (exec c w)) = false) by (rewrite Heng; exact Hi).
    destruct (IH (exec c w) Hi' (fun H => Hnot (or_intror H))) as [Hoc [He [Ho Hr]]].
    rewrite run_cons, He, Ho, Hr, Heng, Hout, Herr.
    split; [ | split; [ reflexivity | split; [ reflexivity | ] ] ].
    + simpl. rewrite Hoc. f_equal.
      destruct c as [ | path | | t b n ]; simpl.
      * contradiction Hc. reflexivity.
      * rewrite loadVideo_result, Hi. reflexivity.
      * reflexivity.
      * rewrite extractFrame_result, Hi. reflexivity.
    + rewrite <- app_assoc. f_equal.
      simpl. destruct (logs c); reflexivity.
Qed.

Lemma uninitialized_engine_refuses_witness :
  outcomes [LoadVideo "a.mp4"; GetMetadata; ExtractFrame 0 ten_bytes 10] fresh
  = [Some false; None; Some false] /\
  engine (run [LoadVideo "a.mp4"; GetMetadata; ExtractFrame 0 ten_bytes 10] fresh)
  = engine fresh /\
  cout (run [LoadVideo "a.mp4"; GetMetadata; ExtractFrame 0 ten_bytes 10] fresh)
  = cout fresh /\
  cerr (run [LoadVideo "a.mp4"; GetMetadata; ExtractFrame 0 ten_bytes 10] fresh)
  = (cerr fresh ++ ["VideoEngine: Not initialized"; "VideoEngine: Not initialized"])%list.
Proof.
  apply (uninitialized_engine_refuses
           [LoadVideo "a.mp4"; GetMetadata; ExtractFrame 0 ten_bytes 10] fresh).
  - reflexivity.
  - intros [H | [H | [H | []]]]; discriminate H.
Defined.

(** X6.  Once the engine is initialised no call fails: along any sequence
    of calls every [initialize], [loadVideo] and [extractFrame] returns
    [true]. *)
Theorem initialized_engine_never_fails (cs : list call) (w : World) :
  initialized_ (engine w) = true ->
  outcomes cs w = map (fun c => if logs c then Some true else None) cs.
Proof.
  revert w. induction cs as [ | c cs IH ]; intros w Hi.
  - reflexivity.
  - simpl. rewrite (IH _ (exec_keeps_initialized c w Hi)). f_equal.
    destruct c as [ | path | | t b n ]; simpl.
    + rewrite (initialize_already w Hi). reflexivity.
    + rewrite loadVideo_result, Hi. reflexivity.
    + reflexivity.
    + rewrite extractFrame_result, Hi. reflexivity.
Qed.

Lemma initialized_engine_never_fails_witness :
  outcomes [LoadVideo ""; ExtractFrame (-1) [] 0; GetMetadata; Initialize] ready
  = [Some true; Some true; None; Some true].
Proof.
  apply (initialized_engine_never_fails
           [LoadVideo ""; ExtractFrame (-1) [] 0; GetMetadata; Initialize] ready).
  reflexivity.
Defined.

(** X7.  The flag after a sequence of calls is set exactly when it was set
    before or the sequence holds an [initialize]. *)
Theorem flag_after_run (cs : list call) (w : World) :
  initialized_ (engine (run cs w))
  = initialized_ (engine w) || existsb is_initialize cs.
Proof.
  revert w. induction cs as [ | c cs IH ]; intros w.
  - simpl. rewrite orb_false_r. reflexivity.
  - rewrite run_cons, IH. cbn [existsb].
    destruct (initialized_ (engine w)) eqn:Hi.
    + rewrite (exec_keeps_initialized c w Hi). reflexivity.
    + destruct (is_initialize c) eqn:Hc.
      * destruct c; try discriminate Hc.
        cbn [exec]. rewrite initialize_sets_flag. reflexivity.
      * rewrite (exec_keeps_uninitialized c w); [ reflexivity | | exact Hi ].
        intros ->. discriminate Hc.
Qed.

(** Without [initialize] an engine that is not initialised stays as it is. *)
Lemma run_uninitialized_engine (cs : list call) :
  forall w, initialized_ (engine w) = false -> ~ In Initialize cs ->
            engine (run cs w) = engine w.
Proof.
  induction cs as [ | c cs IH ]; intros w Hi Hnot.
  - reflexivity.
  - assert (Hc : c <> Initialize) by (intros ->; apply Hnot; left; reflexivity).
    destruct (exec_streams_uninitialized c w Hi Hc) as [Heng _].
    rewrite run_cons, IH, Heng.
    + reflexivity.
    + rewrite Heng. exact Hi.
    + intros Hin. apply Hnot. right. exact Hin.
Qed.

(** X8.  [getMetadata] has no guard.  On a constructed engine on which no
    [loadVideo] has returned [true] (the calls before the first
    [initialize] are any, the calls after it are not [loadVideo]) it
    returns the empty path, the empty codec and the numbers the
    constructor left uninitialised, and it changes neither the engine nor
    the streams. *)
Theorem getMetadata_before_any_load
    (u : Indeterminate) (out err : list string) (refused later : list call) :
  ~ In Initialize refused ->
  (forall c, In c later -> is_load c = false) ->
  getMetadata (run (refused ++ later) (construct u out err))
  = (default_metadata u, run (refused ++ later) (construct u out err)) /\
  filePath (fst (getMetadata (run (refused ++ later) (construct u out err)))) = "" /\
  codec (fst (getMetadata (run (refused ++ later) (construct u out err)))) = "".
Proof.
  intros Hrefused Hlater.
  assert (Hm : metadata_ (engine (run (refused ++ later) (construct u out err)))
               = default_metadata u).
  { rewrite run_app, (run_metadata_no_load later _ Hlater).
    rewrite (run_uninitialized_engine refused (construct u out err));
      [ reflexivity | reflexivity | exact Hrefused ]. }
  unfold getMetadata, get_metadata. simpl. rewrite Hm.
  repeat split.
Qed.

Lemma getMetadata_before_any_load_witness :
  getMetadata (run ([LoadVideo "a.mp4"] ++ [Initialize; ExtractFrame 0 ten_bytes 10])
                   (construct garbage [] []))
  = (default_metadata garbage,
     run ([LoadVideo "a.mp4"] ++ [Initialize; ExtractFrame 0 ten_bytes 10])
         (construct garbage [] [])) /\
  filePath (fst (getMetadata
                   (run ([LoadVideo "a.mp4"] ++ [Initialize; ExtractFrame 0 ten_bytes 10])
                        (construct garbage [] [])))) = "" /\
  codec (fst (getMetadata
                (run ([LoadVideo "a.mp4"] ++ [Initialize; ExtractFrame 0 ten_bytes 10])
                     (construct garbage [] [])))) = "".
Proof.
  apply (getMetadata_before_any_load garbage [] []
           [LoadVideo "a.mp4"] [Initialize; ExtractFrame 0 ten_bytes 10]).
  - intros [H | []]. discriminate H.
  - intros c [<- | [<- | []]]; reflexivity.
Defined.

(** X9.  The lines an engine writes to [std::cout] over its lifetime are
    bracketed: whatever is called between construction and destruction,
    [std::cout] ends up as what it held before, then the constructor's
    line, then the lines of the calls, then the destructor's line; and
    [std::cerr] only grows.  The lines of the calls on both streams number
    the calls that are not a [getMetadata]. *)
Theorem lifetime_log (u : Indeterminate) (out err : list string) (cs : list call) :
  exists mid e,
    destroy (run cs (construct u out err))
    = ((out ++ "VideoEngine: Constructor called" :: mid
            ++ ["VideoEngine: Destructor called"])%list,
       (err ++ e)%list) /\
    (List.length mid + List.length e)%nat = List.length (filter logs cs).
Proof.
  destruct (run_appends cs (construct u out err)) as [mid [e [Ho [He Hlen]]]].
  exists mid, e. split; [ | exact Hlen ].
  unfold destroy. rewrite Ho, He. simpl.
  rewrite <- !app_assoc. reflexivity.
Qed.

(** ** The line of [extractFrame] *)

(** Printing an [int64_t] loses nothing: the numeral names one integer. *)
Lemma show_int64_inj (a b : Z) : show_int64 a = show_int64 b -> a = b.
Proof.
  unfold show_int64. intros Heq.
  assert (Hnn : forall z, Z.to_int z <> Decimal.Pos Decimal.Nil /\
                          Z.to_int z <> Decimal.Neg Decimal.Nil).
  { intros [ | p | p ]; simpl; split; try discriminate;
      intros [= H]; exact (DecimalPos.Unsigned.to_uint_nonnil p H). }
  assert (Hsome : Some (Z.to_int a) = Some (Z.to_int b)).
  { rewrite <- (NilZero.isi (Z.to_int a)) by apply Hnn.
    rewrite <- (NilZero.isi (Z.to_int b)) by apply Hnn.
    rewrite Heq. reflexivity. }
  injection Hsome as Hint.
  rewrite <- (DecimalZ.of_to a), <- (DecimalZ.of_to b), Hint. reflexivity.
Qed.

Lemma length_append (s t : string) :
  String.length (s ++ t) = (String.length s + String.length t)%nat.
Proof. induction s as [ | c s IH ]; simpl; [ reflexivity | rewrite IH; reflexivity ]. Qed.

(** A common suffix of two strings can be dropped. *)
Lemma append_inv_tail (t : string) :
  forall s1 s2 : string, s1 ++ t = s2 ++ t -> s1 = s2.
Proof.
  induction s1 as [ | c1 s1 IH ]; intros [ | c2 s2 ] Heq.
  - reflexivity.
  - apply (f_equal String.length) in Heq. simpl in Heq.
    rewrite length_append in Heq. lia.
  - apply (f_equal String.length) in Heq. simpl in Heq.
    rewrite length_append in Heq. lia.
  - simpl in Heq. injection Heq as Hc Hs.
    rewrite Hc, (IH s2 Hs). reflexivity.
Qed.

(** X10.  The line [extractFrame] writes on an initialised engine names its
    timestamp and nothing else of the call: two calls leave the same
    [std::cout] exactly when their timestamps are equal, whatever their
    buffers. *)
Theorem extractFrame_line_names_timestamp
    (t1 t2 : Z) (b1 b2 : list byte) (n1 n2 : N) (w : World) :
  initialized_ (engine w) = true ->
  (cout (snd (extractFrame t1 b1 n1 w)) = cout (snd (extractFrame t2 b2 n2 w))
   <-> t1 = t2).
Proof.
  intros Hi.
  rewrite (extractFrame_initialized t1 b1 n1 w Hi).
  rewrite (extractFrame_initialized t2 b2 n2 w Hi).
  simpl. split.
  - intros Heq. apply app_inv_head in Heq. injection Heq as Hline.
    apply append_inv_tail in Hline.
    apply show_int64_inj. exact Hline.
  - intros ->. reflexivity.
Qed.

Lemma extractFrame_line_names_timestamp_witness :
  cout (snd (extractFrame 40 ten_bytes 10 playing))
  = cout (snd (extractFrame 40 frame_buffer frame_size playing))
  <-> 40 = 40.
Proof.
  apply (extractFrame_line_names_timestamp 40 40 ten_bytes frame_buffer 10 frame_size playing).
  reflexivity.
Defined.
